(** * hxcpp-guide: the dynamic-library and foreign-function examples

    A shallow embedding of the guide's example programs:

    - [Foreign]  : [cffi/examples/simple/cpp/Foreign.cpp], the native
                   primitive [CPP_ForeignFunction];
    - [Haxe]     : the Haxe client [Main] that loads and calls it;
    - [Shared]   : [5.1-building-a-dynamic-library/2-shared/empty.cpp], the
                   [extern "C"] wrapper ([run_haxe], [empty_test]);
    - [Dl]       : the platform's dynamic loader ([dlopen], [dlsym],
                   [dlclose]) and the typed loader contract built on it;
    - [Client]   : the C client [main] that drives the wrapper through
                   [dlopen]/[dlsym]/[dlclose].

    Definitions come first, the theorems about them follow. *)

From Stdlib Require Import ZArith String Ascii List Bool Lia DecimalString.
From stdpp Require Import base option list gmap strings.

(** ** C [int] and [printf] *)

Module Cint.

(** [int] is 32 bits wide, two's complement. *)
Definition INT_MIN : Z := (-2147483648)%Z.
Definition INT_MAX : Z := 2147483647%Z.

Definition in_range (z : Z) : Prop := (INT_MIN <= z <= INT_MAX)%Z.

(** The value an [int] holds after an arithmetic result [z] is stored in
    it: [z] reduced modulo [2^32] into [[INT_MIN, INT_MAX]]. *)
Definition wrap (z : Z) : Z := ((z + 2 ^ 31) mod 2 ^ 32 - 2 ^ 31)%Z.

(** [intVal++] *)
Definition incr (z : Z) : Z := wrap (z + 1).

End Cint.

Module Stdio.

(** What a process writes: text from C's [printf], and the messages of
    Haxe's [trace] (which the runtime prints with a position prefix). *)
Inductive Output :=
| Printed (text : string)
| Traced (msg : string).

Inductive Arg :=
| ArgInt (z : Z)
| ArgStr (s : string).

(** The line feed, [\n] in the C sources. *)
Definition nl : string := String "010"%char EmptyString.

(** [%d] *)
Definition fmt_d (z : Z) : string := NilZero.string_of_int (Z.to_int z).

(** The text of [printf(fmt, args...)] for the conversions the sources
    use, [%d] and [%s]. *)
Fixpoint format (fmt : string) (args : list Arg) : string :=
  match fmt with
  | EmptyString => EmptyString
  | String "%"%char (String c rest) =>
      match c, args with
      | "d"%char, ArgInt z :: args' => fmt_d z +:+ format rest args'
      | "s"%char, ArgStr s :: args' => s +:+ format rest args'
      | _, _ => String "%"%char (String c (format rest args))
      end
  | String c rest => String c (format rest args)
  end.

Definition printf (fmt : string) (args : list Arg) (out : list Output)
  : list Output :=
  out ++ [Printed (format fmt args)].

Definition trace (msg : string) (out : list Output) : list Output :=
  out ++ [Traced msg].

End Stdio.

(** ** Foreign.cpp *)

Module Foreign.
Import Cint Stdio.

(** [value] of [hx/CFFI.h], for the values that cross the boundary in
    this example: boxed [int]s. *)
Inductive value := VInt (i : Z).

Definition val_int (v : value) : Z := match v with VInt i => i end.
Definition alloc_int (i : Z) : value := VInt i.

(** [value CPP_ForeignFunction(value haxeVal)] *)
Definition CPP_ForeignFunction (haxeVal : value) (out : list Output)
  : value * list Output :=
  let intVal := val_int haxeVal in
  let out := printf ("CPP: intVal = %d" +:+ nl) [ArgInt intVal] out in
  let intVal := incr intVal in
  let returnVal := alloc_int intVal in
  (returnVal, out).

(** A native function, by the number of [value] parameters in its C
    signature. *)
Inductive NativeFn :=
| Fn0 (f : list Output -> value * list Output)
| Fn1 (f : value -> list Output -> value * list Output)
| Fn2 (f : value -> value -> list Output -> value * list Output).

Definition fn_arity (f : NativeFn) : nat :=
  match f with Fn0 _ => 0 | Fn1 _ => 1 | Fn2 _ => 2 end.

(** Calling a native function with a list of arguments; [None] when the
    count does not fit the signature. *)
Definition apply_native (f : NativeFn) (args : list value)
  (out : list Output) : option (value * list Output) :=
  match f, args with
  | Fn0 f, [] => Some (f out)
  | Fn1 f, [a] => Some (f a out)
  | Fn2 f, [a; b] => Some (f a b out)
  | _, _ => None
  end.

(** What [DEFINE_PRIM(func, nargs)] exports: the function under its name
    and the declared number of arguments. *)
Record PrimDecl := DEFINE_PRIM {
  prim_name : string;
  prim_fn : NativeFn;
  prim_nargs : nat
}.

(** [DEFINE_PRIM(CPP_ForeignFunction, 1);] *)
Definition CPP_ForeignFunction_prim : PrimDecl :=
  DEFINE_PRIM "CPP_ForeignFunction" (Fn1 CPP_ForeignFunction) 1.

(** The primitives of the library built from Foreign.cpp. *)
Definition libforeign : list PrimDecl := [CPP_ForeignFunction_prim].

End Foreign.

(** ** The Haxe client of Foreign.cpp *)

Module Haxe.
Import Cint Stdio Foreign.

(** A [Dynamic] that holds a loaded primitive, or [null]. *)
Inductive Dynamic :=
| DNull
| DFunction (f : NativeFn).

(** The two ways [cpp.Lib.load] ends: it returns a [Dynamic], or throws. *)
Inductive LoadResult :=
| Loaded (f : Dynamic)
| Thrown (e : string).

(** [cpp.Lib.load(lib, prim, nargs)] is the runtime's; the client is
    parametric in it. *)
Definition LibLoad := string -> string -> nat -> LoadResult.

(** The client's traffic across the boundary. *)
Inductive FfiEvent :=
| EvLoad (lib prim : string) (nargs : nat)
| EvInvoke (args : list value).

Record Main := { ForeignFunction : Dynamic }.

Inductive Completion :=
| Returned
| Uncaught.

Record Run := {
  completion : Completion;
  this : Main;
  out : list Output;
  ffi : list FfiEvent
}.

(** Calling a [Dynamic]: [null], or a primitive called with the wrong
    number of arguments, throws. *)
Definition call_dynamic (f : Dynamic) (args : list value)
  (out : list Output) : option (value * list Output) :=
  match f with
  | DNull => None
  | DFunction fn => apply_native fn args out
  end.

(** [public function new()] *)
Definition Main_new (load : LibLoad) (out : list Output) : Run :=
  let out := trace "Hello from Main, about to load libforeign library" out in
  let ffi := [EvLoad "libforeign" "CPP_ForeignFunction" 1] in
  match load "libforeign" "CPP_ForeignFunction" 1 with
  | Thrown _ =>
      let out := trace "Failed to load libforeign.ndll!" out in
      {| completion := Returned; this := {| ForeignFunction := DNull |};
         out := out; ffi := ffi |}
  | Loaded f =>
      let this := {| ForeignFunction := f |} in
      let ffi := ffi ++ [EvInvoke [VInt 2]] in
      match call_dynamic (ForeignFunction this) [VInt 2] out with
      | None =>
          {| completion := Uncaught; this := this; out := out; ffi := ffi |}
      | Some (r, out) =>
          let a := val_int r in
          let out :=
            trace ("Main called ForeignFunction(2), returned " +:+ fmt_d a)
              out in
          {| completion := Returned; this := this; out := out; ffi := ffi |}
      end
  end.

(** [public static function main() { new Main(); }] *)
Definition main (load : LibLoad) : Run := Main_new load [].

Definition invoked (r : Run) : bool :=
  existsb (fun e => match e with EvInvoke _ => true | _ => false end) (ffi r).

(** [cpp.Lib.load] over a set of installed libraries: the primitive is
    found by its name and its number of arguments, and the call throws
    when the library or the primitive is missing. *)
Definition Lib_load (ndlls : gmap string (list PrimDecl)) : LibLoad :=
  fun lib prim nargs =>
    match ndlls !! lib with
    | None => Thrown ("Could not load module " +:+ lib)
    | Some decls =>
        match
          List.find
            (fun d => String.eqb (prim_name d) prim
                      && Nat.eqb (prim_nargs d) nargs) decls
        with
        | Some d => Loaded (DFunction (prim_fn d))
        | None => Thrown ("Could not find primitive " +:+ prim)
        end
    end.

(** The installation the example is run in: [libforeign] is there. *)
Definition installed : gmap string (list PrimDecl) :=
  {[ "libforeign" := libforeign ]}.

End Haxe.

(** ** empty.cpp, the wrapper around the generated code *)

Module Shared.
Import Stdio.

(** The state the wrapper and the runtime act on. *)
Record World := {
  top_of_stack : bool;   (* hxcpp knows the stack *)
  initialized : bool;    (* the Haxe [static main] and initializers ran *)
  stdout : list Output
}.

(** The symbols empty.cpp takes from hxcpp and the generated code:
    [extern void hxcpp_set_top_of_stack();],
    [extern const char* hxRunLibrary();] ([None] is the null pointer) and
    [Empty_obj::test()] of Empty.h. *)
Record Hxcpp := {
  hxcpp_set_top_of_stack : World -> World;
  hxRunLibrary : World -> option string * World;
  Empty_obj_test : World -> World
}.

(** [int run_haxe()] *)
Definition run_haxe (rt : Hxcpp) (w : World) : Z * World :=
  let w := hxcpp_set_top_of_stack rt w in
  let '(err, w) := hxRunLibrary rt w in
  match err with
  | Some e =>
      let w := {| top_of_stack := top_of_stack w;
                  initialized := initialized w;
                  stdout := printf ("Error %s" +:+ nl) [ArgStr e] (stdout w) |} in
      ((-1)%Z, w)
  | None => (0%Z, w)
  end.

(** [void empty_test()] *)
Definition empty_test (rt : Hxcpp) (w : World) : World :=
  Empty_obj_test rt w.

(** The runtime as the guide describes it for Empty.hx: [hxRunLibrary]
    runs [static main] (which traces) and the static initializers and
    returns null; [Empty_obj::test] traces. *)
Definition guide_runtime : Hxcpp := {|
  hxcpp_set_top_of_stack w :=
    {| top_of_stack := true; initialized := initialized w;
       stdout := stdout w |};
  hxRunLibrary w :=
    (None, {| top_of_stack := top_of_stack w; initialized := true;
              stdout := trace "hello empty library" (stdout w) |});
  Empty_obj_test w :=
    {| top_of_stack := top_of_stack w; initialized := initialized w;
       stdout := trace "hello test function" (stdout w) |}
|}.

(** A runtime whose Haxe code throws [e] from [static main]:
    [hxRunLibrary] returns the exception's text. *)
Definition throwing_runtime (e : string) : Hxcpp := {|
  hxcpp_set_top_of_stack w :=
    {| top_of_stack := true; initialized := initialized w;
       stdout := stdout w |};
  hxRunLibrary w := (Some e, w);
  Empty_obj_test w :=
    {| top_of_stack := top_of_stack w; initialized := initialized w;
       stdout := trace "hello test function" (stdout w) |}
|}.

Definition fresh : World :=
  {| top_of_stack := false; initialized := false; stdout := [] |}.

End Shared.

(** ** The dynamic loader *)

Module Dl.
Import Shared.

(** [void*] as the client uses it: null, the handle of a loaded module,
    or the address of symbol [name] of the module behind handle [h]. *)
Inductive ptr :=
| NULL
| Handle (h : nat)
| Fn (h : nat) (name : string).

Inductive Mode :=
| RTLD_LAZY
| RTLD_NOW.

Inductive InvocationResult :=
| RVoid
| RInt (z : Z)
| RPtr (p : ptr).

(** The code behind an exported entry point. *)
Abbreviation Entry := (World -> InvocationResult * World) (only parsing).

(** A file as the platform sees it. *)
Record File := {
  f_valid : bool;                 (* a module for this platform *)
  f_unresolved : list string;     (* dependencies that cannot be met *)
  f_exports : gmap string Entry   (* the export table *)
}.

Definition loadable (f : File) : bool :=
  f_valid f && bool_decide (f_unresolved f = []).

(** The record the loader keeps per handle it has given out. *)
Record Slot := {
  h_open : bool;
  h_path : string;
  h_mode : Mode;
  h_exports : gmap string Entry;
  h_bound : gset string           (* symbols whose resolution is done *)
}.

Record Loader := {
  fs : gmap string File;
  referenced : gset string;       (* modules still referenced elsewhere *)
  handles : list Slot
}.

Inductive Lifecycle :=
| Unopened
| Open
| Closed.

Definition lifecycle (l : Loader) (h : nat) : Lifecycle :=
  match handles l !! h with
  | None => Unopened
  | Some s => if h_open s then Open else Closed
  end.

(** [Unopened -> Open -> Closed], as a position on that line. *)
Definition rank (s : Lifecycle) : nat :=
  match s with Unopened => 0 | Open => 1 | Closed => 2 end.

(** Whether [path] names an existing file that is a valid module with
    all its dependencies met. *)
Definition is_module (l : Loader) (path : string) : bool :=
  match fs l !! path with
  | Some f => loadable f
  | None => false
  end.

Definition set_handles (l : Loader) (hs : list Slot) : Loader :=
  {| fs := fs l; referenced := referenced l; handles := hs |}.

(** The slot of a module just loaded from [f] at [path]. With [RTLD_NOW]
    every symbol is resolved at load time, with [RTLD_LAZY] none is. *)
Definition new_slot (path : string) (mode : Mode) (f : File) : Slot :=
  {| h_open := true; h_path := path; h_mode := mode;
     h_exports := f_exports f;
     h_bound := match mode with
                | RTLD_NOW => dom (f_exports f)
                | RTLD_LAZY => ∅
                end |}.

(** Modelled from the spec: the platform's load primitive ([dlopen] of
    dlfcn.h, of which the repository has only the caller). It fails, with
    the null pointer, when the file does not exist, is not a valid module
    or has unresolved dependencies; otherwise it gives out a handle that
    was never used before. *)
Definition dlopen (path : string) (mode : Mode) (l : Loader) : ptr * Loader :=
  match fs l !! path with
  | Some f =>
      if loadable f then
        (Handle (length (handles l)),
         set_handles l (handles l ++ [new_slot path mode f]))
      else (NULL, l)
  | None => (NULL, l)
  end.

Definition bind_symbol (name : string) (s : Slot) : Slot :=
  {| h_open := h_open s; h_path := h_path s; h_mode := h_mode s;
     h_exports := h_exports s; h_bound := {[ name ]} ∪ h_bound s |}.

(** Modelled from the spec: the platform's resolve primitive ([dlsym]).
    It looks the exact name up in the export table of an open handle and
    gives the null pointer when there is no such export. A lazily loaded
    module resolves the symbol at this first use. *)
Definition dlsym (handle : ptr) (name : string) (l : Loader) : ptr * Loader :=
  match handle with
  | Handle h =>
      match handles l !! h with
      | Some s =>
          if h_open s then
            match h_exports s !! name with
            | Some _ =>
                (Fn h name,
                 set_handles l (<[h := bind_symbol name s]> (handles l)))
            | None => (NULL, l)
            end
          else (NULL, l)
      | None => (NULL, l)
      end
  | _ => (NULL, l)
  end.

(** Modelled from the spec: the call through a resolved function pointer.
    The entry point runs when the pointer is a symbol of a handle that is
    open; calling anything else (null, a handle, a symbol of a released
    handle) is not a call of an entry point at all ([None]). *)
Definition call (fn : ptr) (l : Loader) (w : World)
  : option (InvocationResult * World) :=
  match fn with
  | Fn h name =>
      match handles l !! h with
      | Some s =>
          if h_open s then
            match h_exports s !! name with
            | Some body => Some (body w)
            | None => None
            end
          else None
      | None => None
      end
  | _ => None
  end.

Definition release (s : Slot) : Slot :=
  {| h_open := false; h_path := h_path s; h_mode := h_mode s;
     h_exports := h_exports s; h_bound := h_bound s |}.

(** Modelled from the spec: the platform's unload primitive ([dlclose]).
    It releases an open handle, and reports failure (non-zero) for a
    pointer that is not an open handle or when the module is still
    referenced elsewhere in the process. After the call the handle is
    released either way. *)
Definition dlclose (handle : ptr) (l : Loader) : Z * Loader :=
  match handle with
  | Handle h =>
      match handles l !! h with
      | Some s =>
          if h_open s then
            ((if bool_decide (h_path s ∈ referenced l) then (-1)%Z else 0%Z),
             set_handles l (<[h := release s]> (handles l)))
          else ((-1)%Z, l)
      | None => ((-1)%Z, l)
      end
  | _ => ((-1)%Z, l)
  end.

(** *** The typed contract over the primitives *)

Inductive Error :=
| LoadError
| SymbolNotFoundError
| SignatureMismatch
| UnloadError.

Abbreviation LibraryHandle := nat (only parsing).

Record SymbolReference := {
  ref_handle : LibraryHandle;
  ref_name : string
}.

(** Modelled from the spec: [open(path, mode) -> LibraryHandle | Error],
    the loader's facade over the load primitive, which is not in the
    repository. *)
Definition open (path : string) (mode : Mode) (l : Loader)
  : (LibraryHandle + Error) * Loader :=
  let '(p, l') := dlopen path mode l in
  (match p with Handle h => inl h | _ => inr LoadError end, l').

(** Modelled from the spec: [resolve(handle, name) -> SymbolReference |
    Error], the facade over the resolve primitive. *)
Definition resolve (handle : LibraryHandle) (name : string) (l : Loader)
  : (SymbolReference + Error) * Loader :=
  let '(p, l') := dlsym (Handle handle) name l in
  (match p with
   | Fn h n => inl {| ref_handle := h; ref_name := n |}
   | _ => inr SymbolNotFoundError
   end, l').

(** Modelled from the spec: [invoke(ref, ...) -> InvocationResult], the
    call of the resolved entry point; what it does is the entry point's
    business. [None] where the reference is not valid. *)
Definition invoke (ref : SymbolReference) (l : Loader) (w : World)
  : option (InvocationResult * World) :=
  call (Fn (ref_handle ref) (ref_name ref)) l w.

(** Modelled from the spec: [close(handle) -> () | Error], the facade
    over the unload primitive. *)
Definition close (handle : LibraryHandle) (l : Loader)
  : (unit + Error) * Loader :=
  let '(rc, l') := dlclose (Handle handle) l in
  (if (rc =? 0)%Z then inl tt else inr UnloadError, l').

(** The operations a client can perform, and their effect on a process. *)
Inductive Op :=
| OOpen (path : string) (mode : Mode)
| OResolve (handle : ptr) (name : string)
| OInvoke (fn : ptr)
| OClose (handle : ptr).

Definition step (o : Op) (lw : Loader * World) : Loader * World :=
  match o with
  | OOpen path mode => ((dlopen path mode lw.1).2, lw.2)
  | OResolve h name => ((dlsym h name lw.1).2, lw.2)
  | OInvoke fn =>
      match call fn lw.1 lw.2 with
      | Some (_, w') => (lw.1, w')
      | None => lw
      end
  | OClose h => ((dlclose h lw.1).2, lw.2)
  end.

Definition exec (ops : list Op) (lw : Loader * World) : Loader * World :=
  foldl (fun s o => step o s) lw ops.

(** The shared library built from empty.cpp against runtime [rt]: its
    export table, as [nm -gU] lists it. *)
Definition libEmpty (rt : Hxcpp) : gmap string Entry :=
  {[ "run_haxe" := (fun w => let '(r, w') := run_haxe rt w in (RInt r, w'));
     "empty_test" := (fun w => (RVoid, empty_test rt w)) ]}.

Definition libEmpty_file (rt : Hxcpp) : File :=
  {| f_valid := true; f_unresolved := []; f_exports := libEmpty rt |}.

End Dl.

(** ** The client *)

Module Client.
Import Shared Dl.

Record Proc := { loader : Loader; world : World }.

(** The calls the client makes, with their arguments. *)
Inductive Event :=
| EvDlopen (path : string) (mode : Mode)
| EvDlsym (handle : ptr) (name : string)
| EvCall (fn : ptr)
| EvDlclose (handle : ptr).

(** A C computation: it runs on the process, records its calls, and
    either yields a value or ends the process abnormally ([None]). *)
Definition M (A : Type) : Type :=
  Proc * list Event -> option A * (Proc * list Event).

#[global] Instance M_ret : MRet M := fun A a s => (Some a, s).

#[global] Instance M_bind : MBind M := fun A B k m s =>
  match m s with
  | (Some a, s') => k a s'
  | (None, s') => (None, s')
  end.

Definition c_dlopen (path : string) (mode : Mode) : M ptr :=
  fun '(p, tr) =>
    let '(h, l) := dlopen path mode (loader p) in
    (Some h, ({| loader := l; world := world p |}, tr ++ [EvDlopen path mode])).

Definition c_dlsym (handle : ptr) (name : string) : M ptr :=
  fun '(p, tr) =>
    let '(f, l) := dlsym handle name (loader p) in
    (Some f, ({| loader := l; world := world p |}, tr ++ [EvDlsym handle name])).

(** [fn()] through a [VoidFN]: whatever the entry point returns is
    dropped. *)
Definition c_call (fn : ptr) : M unit :=
  fun '(p, tr) =>
    match call fn (loader p) (world p) with
    | Some (_, w) =>
        (Some tt, ({| loader := loader p; world := w |}, tr ++ [EvCall fn]))
    | None => (None, (p, tr ++ [EvCall fn]))
    end.

Definition c_dlclose (handle : ptr) : M Z :=
  fun '(p, tr) =>
    let '(rc, l) := dlclose handle (loader p) in
    (Some rc, ({| loader := l; world := world p |}, tr ++ [EvDlclose handle])).

Definition lib_path : string := "../2-shared/libEmpty.dylib".

(** [int main()] *)
Definition main : M Z :=
  handle ← c_dlopen lib_path RTLD_NOW;
  init ← c_dlsym handle "run_haxe";
  let init_fn := init in
  _ ← c_call init_fn;
  test ← c_dlsym handle "empty_test";
  let test_fn := test in
  _ ← c_call test_fn;
  _ ← c_dlclose handle;
  mret 0%Z.

Inductive Outcome :=
| Exited (status : Z)
| Crashed.

Record Run := {
  outcome : Outcome;
  events : list Event;
  final : Proc
}.

Definition run (m : M Z) (p : Proc) : Run :=
  let '(r, (p', tr)) := m (p, []) in
  {| outcome := match r with Some z => Exited z | None => Crashed end;
     events := tr; final := p' |}.

(** The sequence of the guide: open, resolve and call the bootstrap,
    resolve and call the test, close. *)
Definition script (handle init test : ptr) : list Event :=
  [EvDlopen lib_path RTLD_NOW;
   EvDlsym handle "run_haxe"; EvCall init;
   EvDlsym handle "empty_test"; EvCall test;
   EvDlclose handle].

(** A monitor for [Unopened -> Open -> Closed] over the client's calls:
    one open at the start, resolves and calls only while open, one close,
    nothing after it. *)
Fixpoint monitor (st : Lifecycle) (tr : list Event) : bool :=
  match tr with
  | [] => true
  | EvDlopen _ _ :: tr' =>
      match st with Unopened => monitor Open tr' | _ => false end
  | EvDlsym _ _ :: tr' | EvCall _ :: tr' =>
      match st with Open => monitor Open tr' | _ => false end
  | EvDlclose _ :: tr' =>
      match st with Open => monitor Closed tr' | _ => false end
  end.

Definition is_close (e : Event) : bool :=
  match e with EvDlclose _ => true | _ => false end.

Definition closes (tr : list Event) : nat :=
  length (List.filter is_close tr).

(** A process in which the guide's library is installed at the path the
    client opens. *)
Definition guide_proc (rt : Hxcpp) : Proc :=
  {| loader := {| fs := {[ lib_path := libEmpty_file rt ]};
                  referenced := ∅; handles := [] |};
     world := fresh |}.

(** Its loader once the library has been opened, under handle 0. *)
Definition guide_opened (rt : Hxcpp) (mode : Mode) : Loader :=
  (dlopen lib_path mode (loader (guide_proc rt))).2.

(** A process without the library. *)
Definition bare_proc : Proc :=
  {| loader := {| fs := ∅; referenced := ∅; handles := [] |};
     world := fresh |}.

End Client.

(** ** The examples in use *)

Module Usage.
Import Cint Stdio Foreign Shared Dl Client.

(** [k] calls of the foreign function in a row, each on the value the one
    before returned. *)
Fixpoint call_times (k : nat) (v : value) (out : list Output)
  : value * list Output :=
  match k with
  | O => (v, out)
  | S k' =>
      let '(v', out') := CPP_ForeignFunction v out in
      call_times k' v' out'
  end.

(** The lines [printf] writes in [k] such calls that start from [n] and do
    not overflow. *)
Fixpoint printed_from (n : Z) (k : nat) : list Output :=
  match k with
  | O => []
  | S k' =>
      Printed ("CPP: intVal = " +:+ fmt_d n +:+ nl)
      :: printed_from (n + 1) k'
  end.

(** Builds of the wrapper with one of the two entry points left out of the
    [extern "C"] block. *)
Definition only_run_haxe (rt : Hxcpp) : File :=
  {| f_valid := true; f_unresolved := [];
     f_exports :=
       {[ "run_haxe" :=
            (fun w => let '(r, w') := run_haxe rt w in (RInt r, w')) ]} |}.

Definition only_empty_test (rt : Hxcpp) : File :=
  {| f_valid := true; f_unresolved := [];
     f_exports := {[ "empty_test" := (fun w => (RVoid, empty_test rt w)) ]} |}.

(** A process with file [f] at the path the client opens, started on
    world [w]. *)
Definition proc_with (f : File) (w : World) : Proc :=
  {| loader := {| fs := {[ lib_path := f ]}; referenced := ∅; handles := [] |};
     world := w |}.

End Usage.

(** * Theorems *)

(** ** Foreign.cpp and its Haxe client *)

Section ForeignFacts.
Import Cint Stdio Foreign Haxe.

Lemma wrap_in_range (z : Z) : in_range z -> wrap z = z.
Proof.
  unfold in_range, wrap, INT_MIN, INT_MAX. intros Hz.
  rewrite Z.mod_small; lia.
Qed.

Lemma incr_below_INT_MAX (n : Z) :
  (INT_MIN <= n < INT_MAX)%Z -> incr n = (n + 1)%Z.
Proof.
  intros Hn. unfold incr. apply wrap_in_range.
  unfold in_range, INT_MIN, INT_MAX in *. lia.
Qed.

Lemma incr_INT_MAX : incr INT_MAX = INT_MIN.
Proof. reflexivity. Qed.

Lemma incr_in_range (n : Z) : in_range (incr n).
Proof.
  unfold incr, wrap, in_range, INT_MIN, INT_MAX.
  pose proof (Z.mod_pos_bound (n + 1 + 2 ^ 31) (2 ^ 32)) as Hb. lia.
Qed.

(** The text [CPP_ForeignFunction] prints, and that it only appends. *)
Lemma CPP_ForeignFunction_output (v : value) (out : list Output) :
  (CPP_ForeignFunction v out).2
  = out ++ [Printed ("CPP: intVal = " +:+ fmt_d (val_int v) +:+ nl)].
Proof. destruct v as [i]. reflexivity. Qed.

(** The returned value does not depend on what was printed before. *)
Lemma CPP_ForeignFunction_result (v : value) (out : list Output) :
  (CPP_ForeignFunction v out).1 = alloc_int (incr (val_int v)).
Proof. reflexivity. Qed.

End ForeignFacts.

Section ForeignClaims.
Import Cint Stdio Foreign Haxe.

(** C1, as amended. For every [int] input [n] below [INT_MAX],
    [CPP_ForeignFunction] returns [n + 1] (so input 2 returns 3), it
    prints its one line after what was printed before, and the value it
    returns is the same on every call with that input, whatever the state
    of the output [out'] at that call. *)
Theorem C1_increment_below_INT_MAX (n : Z) (out out' : list Output) :
  (INT_MIN <= n < INT_MAX)%Z ->
  CPP_ForeignFunction (VInt n) out
  = (VInt (n + 1),
     out ++ [Printed ("CPP: intVal = " +:+ fmt_d n +:+ nl)])
  /\ (CPP_ForeignFunction (VInt n) out').1
     = (CPP_ForeignFunction (VInt n) out).1.
Proof.
  intros Hn. split; [|reflexivity].
  rewrite (surjective_pairing (CPP_ForeignFunction (VInt n) out)).
  rewrite CPP_ForeignFunction_output, CPP_ForeignFunction_result.
  cbn [val_int alloc_int]. by rewrite incr_below_INT_MAX.
Qed.

(** C1 at input 2: the call returns 3, after any earlier call as well. *)
Lemma C1_two_returns_three :
  (INT_MIN <= 2 < INT_MAX)%Z
  /\ CPP_ForeignFunction (VInt 2) []
     = (VInt 3, [Printed ("CPP: intVal = 2" +:+ nl)])
  /\ (CPP_ForeignFunction (VInt 2) (CPP_ForeignFunction (VInt 2) []).2).1
     = (CPP_ForeignFunction (VInt 2) []).1.
Proof.
  split; [unfold INT_MIN, INT_MAX; lia|].
  apply (C1_increment_below_INT_MAX 2 []
           (CPP_ForeignFunction (VInt 2) []).2).
  unfold INT_MIN, INT_MAX; lia.
Defined.

(** C1 as stated fails at the largest [int]: the increment overflows and
    the call returns [INT_MIN], not [INT_MAX + 1]. *)
Lemma C1_overflow_at_INT_MAX :
  in_range INT_MAX
  /\ (CPP_ForeignFunction (VInt INT_MAX) []).1 = VInt INT_MIN
  /\ (CPP_ForeignFunction (VInt INT_MAX) []).1 <> VInt (INT_MAX + 1).
Proof.
  split; [unfold in_range, INT_MIN, INT_MAX; lia|].
  split; [reflexivity|]. intros H. discriminate H.
Qed.

(** The whole example: with libforeign installed the client prints its
    greeting, the native line, and the result 3. *)
Example main_with_libforeign :
  let r := Haxe.main (Lib_load installed) in
  completion r = Returned
  /\ Haxe.out r
     = [Traced "Hello from Main, about to load libforeign library";
        Printed ("CPP: intVal = 2" +:+ nl);
        Traced "Main called ForeignFunction(2), returned 3"]
  /\ ffi r = [EvLoad "libforeign" "CPP_ForeignFunction" 1; EvInvoke [VInt 2]].
Proof. cbv zeta. repeat split; reflexivity. Qed.

(** The shape of every run of [Main.new]: the load is logged first, and
    at most one call follows it. *)
Lemma Main_new_ffi (load : LibLoad) (out0 : list Output) :
  ffi (Main_new load out0) = [EvLoad "libforeign" "CPP_ForeignFunction" 1]
  \/ (exists f, load "libforeign" "CPP_ForeignFunction" 1 = Loaded f
      /\ ffi (Main_new load out0)
         = [EvLoad "libforeign" "CPP_ForeignFunction" 1; EvInvoke [VInt 2]]).
Proof.
  unfold Main_new.
  destruct (load "libforeign" "CPP_ForeignFunction" 1) as [f|e]; [|by left].
  right. exists f. split; [done|].
  cbn [ForeignFunction].
  by destruct (call_dynamic f [VInt 2] _) as [[r o]|].
Qed.

(** C9. In every run of [Main.new]: the foreign function is invoked only
    if [cpp.Lib.load] returned; and when the load throws, the client
    traces the failure and returns, with no invocation and the field
    still null. *)
Theorem C9_invoke_only_after_load (load : LibLoad) (out0 : list Output) :
  let r := Main_new load out0 in
  (invoked r = true ->
   exists f, load "libforeign" "CPP_ForeignFunction" 1 = Loaded f)
  /\ (forall e, load "libforeign" "CPP_ForeignFunction" 1 = Thrown e ->
      invoked r = false
      /\ ffi r = [EvLoad "libforeign" "CPP_ForeignFunction" 1]
      /\ completion r = Returned
      /\ ForeignFunction (this r) = DNull
      /\ Haxe.out r
         = out0 ++ [Traced "Hello from Main, about to load libforeign library";
                    Traced "Failed to load libforeign.ndll!"]).
Proof.
  cbv zeta. split.
  - intros Hinv. destruct (Main_new_ffi load out0) as [H|[f [Hf _]]].
    + unfold invoked in Hinv. rewrite H in Hinv. discriminate Hinv.
    + by exists f.
  - intros e He. unfold invoked, Main_new. rewrite He. cbn.
    unfold trace. rewrite <- app_assoc. done.
Qed.

(** C9 where nothing is installed: the load throws, and the client
    traces the failure without a call. *)
Lemma C9_nothing_installed :
  invoked (Main_new (Lib_load ∅) []) = false
  /\ ffi (Main_new (Lib_load ∅) [])
     = [EvLoad "libforeign" "CPP_ForeignFunction" 1]
  /\ completion (Main_new (Lib_load ∅) []) = Returned
  /\ ForeignFunction (this (Main_new (Lib_load ∅) [])) = DNull
  /\ Haxe.out (Main_new (Lib_load ∅) [])
     = [Traced "Hello from Main, about to load libforeign library";
        Traced "Failed to load libforeign.ndll!"].
Proof.
  apply (proj2 (C9_invoke_only_after_load (Lib_load ∅) [])
           "Could not load module libforeign").
  reflexivity.
Defined.

(** What [Main.new] does once the load has returned [f]: the one call,
    on the output as the greeting left it, decides the rest. *)
Lemma Main_new_loaded (load : LibLoad) (out0 : list Output) (f : Dynamic) :
  load "libforeign" "CPP_ForeignFunction" 1 = Loaded f ->
  Main_new load out0
  = match
      call_dynamic f [VInt 2]
        (out0 ++ [Traced "Hello from Main, about to load libforeign library"])
    with
    | None =>
        {| completion := Uncaught; this := {| ForeignFunction := f |};
           out := out0
                  ++ [Traced "Hello from Main, about to load libforeign library"];
           ffi := [EvLoad "libforeign" "CPP_ForeignFunction" 1;
                   EvInvoke [VInt 2]] |}
    | Some (r, o) =>
        {| completion := Returned; this := {| ForeignFunction := f |};
           out := o ++ [Traced ("Main called ForeignFunction(2), returned "
                                +:+ fmt_d (val_int r))];
           ffi := [EvLoad "libforeign" "CPP_ForeignFunction" 1;
                   EvInvoke [VInt 2]] |}
    end.
Proof.
  intros Hl. unfold Main_new. rewrite Hl. cbn [ForeignFunction].
  unfold trace. by destruct (call_dynamic f [VInt 2] _) as [[r o]|].
Qed.

(** [cpp.Lib.load] finds a primitive only under the arity it was
    registered with. *)
Lemma Lib_load_other_arity (fn : NativeFn) (n : nat) :
  n <> 1 ->
  exists e,
    Lib_load {[ "libforeign" := [DEFINE_PRIM "CPP_ForeignFunction" fn n] ]}
      "libforeign" "CPP_ForeignFunction" 1
    = Thrown e.
Proof.
  intros Hn. unfold Lib_load. rewrite lookup_singleton_eq.
  cbn [List.find prim_name prim_nargs].
  replace (String.eqb "CPP_ForeignFunction" "CPP_ForeignFunction") with true
    by reflexivity.
  cbn [andb]. destruct (Nat.eqb_spec n 1) as [->|_]; [done|].
  by eexists.
Qed.

(** C10. The arity is the same on both sides of the boundary. The native
    function takes one [value] and [DEFINE_PRIM] registers it with arity
    1. The client asks [cpp.Lib.load] for that name with that arity and
    for nothing else: its run is decided by the answer to that one
    request, whatever the loader would answer to others. When that
    request throws, nothing is invoked; when it returns a primitive, the
    client calls it with exactly one argument, so the call goes through
    exactly for a primitive of arity 1, which is run once on the boxed 2.
    Hence the load of the installed library finds the primitive of
    Foreign.cpp and the client traces the 3 it returns, while a library
    that registered the function with another arity is not loaded. *)
Theorem C10_arity_consistent (load : LibLoad) (out0 : list Output) :
  let P := CPP_ForeignFunction_prim in
  let greeted :=
    out0 ++ [Traced "Hello from Main, about to load libforeign library"] in
  let r := Main_new load out0 in
  fn_arity (prim_fn P) = 1
  /\ prim_nargs P = 1
  /\ (forall e,
        load "libforeign" (prim_name P) (prim_nargs P) = Thrown e ->
        invoked r = false
        /\ Haxe.out r = greeted ++ [Traced "Failed to load libforeign.ndll!"])
  /\ (forall fn,
        load "libforeign" (prim_name P) (prim_nargs P)
        = Loaded (DFunction fn) ->
        invoked r = true
        /\ (completion r = Returned <-> fn_arity fn = prim_nargs P)
        /\ (forall f, fn = Fn1 f ->
            Haxe.out r
            = (f (VInt 2) greeted).2
              ++ [Traced ("Main called ForeignFunction(2), returned "
                          +:+ fmt_d (val_int (f (VInt 2) greeted).1))]))
  /\ (forall lib prim nargs,
        In (EvLoad lib prim nargs) (ffi r) ->
        prim = prim_name P /\ nargs = prim_nargs P)
  /\ (forall args,
        In (EvInvoke args) (ffi r) -> length args = prim_nargs P)
  /\ Lib_load installed "libforeign" "CPP_ForeignFunction" 1
     = Loaded (DFunction (prim_fn P))
  /\ completion (Main_new (Lib_load installed) out0) = Returned
  /\ Haxe.out (Main_new (Lib_load installed) out0)
     = greeted ++ [Printed ("CPP: intVal = 2" +:+ nl);
                   Traced "Main called ForeignFunction(2), returned 3"]
  /\ (forall fn n,
        n <> prim_nargs P ->
        invoked
          (Main_new
             (Lib_load
                {[ "libforeign" := [DEFINE_PRIM "CPP_ForeignFunction" fn n] ]})
             out0)
        = false).
Proof.
  cbv zeta. cbn [prim_name prim_nargs prim_fn CPP_ForeignFunction_prim].
  split; [reflexivity|]. split; [reflexivity|].
  split; [|split; [|split; [|split; [|split; [|split; [|split]]]]]].
  - intros e He. unfold invoked, Main_new. rewrite He. cbn.
    unfold trace. by rewrite <- app_assoc.
  - intros fn Hl. rewrite (Main_new_loaded load out0 _ Hl).
    cbn [call_dynamic]. destruct fn as [g|g|g]; cbn [apply_native fn_arity].
    + split; [done|]. split; [|intros f Hf; discriminate Hf].
      split; intros H; discriminate H.
    + destruct (g (VInt 2) _) as [v o] eqn:Hg.
      split; [done|]. split; [done|].
      intros f Hf. injection Hf as <-. by rewrite Hg.
    + split; [done|]. split; [|intros f Hf; discriminate Hf].
      split; intros H; discriminate H.
  - intros lib prim nargs Hin.
    destruct (Main_new_ffi load out0) as [H|[f [_ H]]];
      rewrite H in Hin; cbn in Hin.
    + destruct Hin as [Hin|[]]. injection Hin as _ <- <-. by split.
    + destruct Hin as [Hin|[Hin|[]]]; [|discriminate Hin].
      injection Hin as _ <- <-. by split.
  - intros args Hin.
    destruct (Main_new_ffi load out0) as [H|[f [_ H]]];
      rewrite H in Hin; cbn in Hin.
    + intuition congruence.
    + destruct Hin as [Hin|[Hin|[]]]; [discriminate Hin|].
      injection Hin as <-. reflexivity.
  - reflexivity.
  - rewrite (Main_new_loaded (Lib_load installed) out0
               (DFunction (Fn1 CPP_ForeignFunction)) eq_refl).
    reflexivity.
  - rewrite (Main_new_loaded (Lib_load installed) out0
               (DFunction (Fn1 CPP_ForeignFunction)) eq_refl).
    cbn. unfold printf. by rewrite <- app_assoc.
  - intros fn n Hn. destruct (Lib_load_other_arity fn n Hn) as [e He].
    unfold invoked, Main_new. by rewrite He.
Qed.

(** C10 with the installed library: the request with arity 1 is answered
    with the primitive of Foreign.cpp, of arity 1, and the call with one
    argument returns. *)
Lemma C10_installed_library :
  invoked (Main_new (Lib_load installed) []) = true
  /\ (completion (Main_new (Lib_load installed) []) = Returned
      <-> fn_arity (Fn1 CPP_ForeignFunction) = 1)
  /\ Haxe.out (Main_new (Lib_load installed) [])
     = [Traced "Hello from Main, about to load libforeign library";
        Printed ("CPP: intVal = 2" +:+ nl);
        Traced "Main called ForeignFunction(2), returned 3"].
Proof.
  pose proof (proj1 (proj2 (proj2 (proj2
                (C10_arity_consistent (Lib_load installed) []))))
                (Fn1 CPP_ForeignFunction) eq_refl) as (Hi & Hc & Ho).
  split; [exact Hi|]. split; [exact Hc|].
  exact (Ho CPP_ForeignFunction eq_refl).
Defined.

End ForeignClaims.

(** ** empty.cpp *)

Section SharedClaims.
Import Stdio Shared.

(** [run_haxe] by the two results of [hxRunLibrary]. *)
Lemma run_haxe_ok (rt : Hxcpp) (w w' : World) :
  hxRunLibrary rt (hxcpp_set_top_of_stack rt w) = (None, w') ->
  run_haxe rt w = (0%Z, w').
Proof. intros H. unfold run_haxe. by rewrite H. Qed.

Lemma run_haxe_err (rt : Hxcpp) (w w' : World) (e : string) :
  hxRunLibrary rt (hxcpp_set_top_of_stack rt w) = (Some e, w') ->
  run_haxe rt w
  = ((-1)%Z,
     {| top_of_stack := top_of_stack w'; initialized := initialized w';
        stdout := stdout w' ++ [Printed ("Error " +:+ e +:+ nl)] |}).
Proof. intros H. unfold run_haxe. by rewrite H. Qed.

(** C3. [run_haxe] sets the top of the stack and runs the library; it
    returns 0 exactly when [hxRunLibrary] returned null. When
    [hxRunLibrary] returned an error string [e], [run_haxe] returns -1 and
    the line [Error e] is printed after whatever the runtime printed. *)
Theorem C3_run_haxe_status (rt : Hxcpp) (w : World) :
  let booted := hxRunLibrary rt (hxcpp_set_top_of_stack rt w) in
  let r := run_haxe rt w in
  (r.1 = 0%Z <-> booted.1 = None)
  /\ match booted.1 with
     | None => r = (0%Z, booted.2)
     | Some e =>
         r.1 = (-1)%Z
         /\ stdout r.2 = stdout booted.2 ++ [Printed ("Error " +:+ e +:+ nl)]
         /\ top_of_stack r.2 = top_of_stack booted.2
         /\ initialized r.2 = initialized booted.2
     end.
Proof.
  cbv zeta.
  destruct (hxRunLibrary rt (hxcpp_set_top_of_stack rt w)) as [[e|] w'] eqn:Hb.
  - rewrite (run_haxe_err rt w w' e Hb). cbn. split; [|done].
    split; intros H; discriminate H.
  - rewrite (run_haxe_ok rt w w' Hb). cbn. done.
Qed.

(** The two runtimes of the guide, run: a clean start gives 0 and the
    trace of [static main]; a throwing [static main] gives -1 and the
    error line, also for an empty message. *)
Example run_haxe_guide :
  run_haxe guide_runtime fresh
  = (0%Z, {| top_of_stack := true; initialized := true;
             stdout := [Traced "hello empty library"] |}).
Proof. reflexivity. Qed.

Example run_haxe_throwing :
  run_haxe (throwing_runtime "boom") fresh
  = ((-1)%Z, {| top_of_stack := true; initialized := false;
                stdout := [Printed ("Error boom" +:+ nl)] |})
  /\ (run_haxe (throwing_runtime EmptyString) fresh).1 = (-1)%Z.
Proof. split; reflexivity. Qed.

End SharedClaims.

(** ** The loader and the client *)

Section DlFacts.
Import Shared Dl.

Lemma dlopen_ok (path : string) (mode : Mode) (l : Loader) (f : File) :
  fs l !! path = Some f -> loadable f = true ->
  dlopen path mode l
  = (Handle (length (handles l)),
     set_handles l (handles l ++ [new_slot path mode f])).
Proof. intros Hf Hl. unfold dlopen. by rewrite Hf, Hl. Qed.

Lemma dlopen_fail (path : string) (mode : Mode) (l : Loader) :
  (forall f, fs l !! path = Some f -> loadable f = false) ->
  dlopen path mode l = (NULL, l).
Proof.
  intros H. unfold dlopen. destruct (fs l !! path) as [f|]; [|done].
  by rewrite (H f eq_refl).
Qed.

Lemma dlsym_found (h : nat) (name : string) (l : Loader) (s : Slot)
  (body : Entry) :
  handles l !! h = Some s -> h_open s = true ->
  h_exports s !! name = Some body ->
  dlsym (Handle h) name l
  = (Fn h name, set_handles l (<[h := bind_symbol name s]> (handles l))).
Proof. intros Hs Ho Hb. unfold dlsym. by rewrite Hs, Ho, Hb. Qed.

Lemma dlsym_missing (h : nat) (name : string) (l : Loader) (s : Slot) :
  handles l !! h = Some s -> h_exports s !! name = None ->
  dlsym (Handle h) name l = (NULL, l).
Proof.
  intros Hs Hb. unfold dlsym. rewrite Hs, Hb. by destruct (h_open s).
Qed.

Lemma dlsym_not_open (h : nat) (name : string) (l : Loader) :
  lifecycle l h <> Open -> dlsym (Handle h) name l = (NULL, l).
Proof.
  unfold lifecycle, dlsym. destruct (handles l !! h) as [s|]; [|done].
  by destruct (h_open s).
Qed.

Lemma call_found (h : nat) (name : string) (l : Loader) (w : World)
  (s : Slot) (body : Entry) :
  handles l !! h = Some s -> h_open s = true ->
  h_exports s !! name = Some body ->
  call (Fn h name) l w = Some (body w).
Proof. intros Hs Ho Hb. unfold call. by rewrite Hs, Ho, Hb. Qed.

Lemma call_not_open (h : nat) (name : string) (l : Loader) (w : World) :
  lifecycle l h <> Open -> call (Fn h name) l w = None.
Proof.
  unfold lifecycle, call. destruct (handles l !! h) as [s|]; [|done].
  by destruct (h_open s).
Qed.

Lemma dlclose_open (h : nat) (l : Loader) (s : Slot) :
  handles l !! h = Some s -> h_open s = true ->
  dlclose (Handle h) l
  = ((if bool_decide (h_path s ∈ referenced l) then (-1)%Z else 0%Z),
     set_handles l (<[h := release s]> (handles l))).
Proof. intros Hs Ho. unfold dlclose. by rewrite Hs, Ho. Qed.

Lemma dlclose_not_open (h : nat) (l : Loader) :
  lifecycle l h <> Open -> dlclose (Handle h) l = ((-1)%Z, l).
Proof.
  unfold lifecycle, dlclose. destruct (handles l !! h) as [s|]; [|done].
  by destruct (h_open s).
Qed.

(** *** The lifecycle only moves forward *)

Lemma lifecycle_insert (l : Loader) (h h' : nat) (s s' : Slot) :
  handles l !! h = Some s ->
  lifecycle (set_handles l (<[h := s']> (handles l))) h'
  = if decide (h' = h) then (if h_open s' then Open else Closed)
    else lifecycle l h'.
Proof.
  intros Hs. unfold lifecycle. cbn [handles set_handles].
  destruct (decide (h' = h)) as [->|Hne].
  - rewrite list_lookup_insert_eq; [done|]. by eapply lookup_lt_Some.
  - by rewrite list_lookup_insert_ne.
Qed.

Lemma dlopen_forward (path : string) (mode : Mode) (l : Loader) (h : nat) :
  rank (lifecycle l h) <= rank (lifecycle (dlopen path mode l).2 h).
Proof.
  unfold dlopen. destruct (fs l !! path) as [f|]; [|done].
  destruct (loadable f); [|done]. cbn [snd]. unfold lifecycle.
  cbn [handles set_handles].
  destruct (handles l !! h) as [s|] eqn:Hs.
  - by rewrite (lookup_app_l_Some _ _ _ _ Hs).
  - cbn. lia.
Qed.

Lemma dlsym_lifecycle (p : ptr) (name : string) (l : Loader) (h : nat) :
  lifecycle (dlsym p name l).2 h = lifecycle l h.
Proof.
  unfold dlsym. destruct p as [|h0|]; try done.
  destruct (handles l !! h0) as [s|] eqn:Hs; [|done].
  destruct (h_open s) eqn:Ho; [|done].
  destruct (h_exports s !! name); [|done]. cbn [snd].
  rewrite (lifecycle_insert l h0 h s _ Hs). cbn [bind_symbol h_open].
  destruct (decide (h = h0)) as [->|]; [|done].
  unfold lifecycle. by rewrite Hs, Ho.
Qed.

Lemma dlclose_forward (p : ptr) (l : Loader) (h : nat) :
  rank (lifecycle l h) <= rank (lifecycle (dlclose p l).2 h).
Proof.
  unfold dlclose. destruct p as [|h0|]; try done.
  destruct (handles l !! h0) as [s|] eqn:Hs; [|done].
  destruct (h_open s) eqn:Ho; [|done]. cbn [snd].
  rewrite (lifecycle_insert l h0 h s _ Hs). cbn [release h_open].
  destruct (decide (h = h0)) as [->|]; [|done].
  unfold lifecycle. rewrite Hs, Ho. cbn. lia.
Qed.

Lemma step_forward (o : Op) (lw : Loader * World) (h : nat) :
  rank (lifecycle lw.1 h) <= rank (lifecycle (step o lw).1 h).
Proof.
  destruct o as [path mode|p name|fn|p]; cbn [step fst].
  - apply dlopen_forward.
  - by rewrite dlsym_lifecycle.
  - by destruct (call fn lw.1 lw.2) as [[r w']|].
  - apply dlclose_forward.
Qed.

Lemma exec_forward (ops : list Op) (lw : Loader * World) (h : nat) :
  rank (lifecycle lw.1 h) <= rank (lifecycle (exec ops lw).1 h).
Proof.
  revert lw. induction ops as [|o ops IH]; intros lw; [done|].
  cbn [exec foldl]. etransitivity; [apply (step_forward o)|apply IH].
Qed.

End DlFacts.

Section ClientFacts.
Import Shared Dl Client.

Lemma lookup_fresh_slot (hs : list Slot) (s : Slot) :
  (hs ++ [s]) !! length hs = Some s.
Proof. by apply list_lookup_middle. Qed.

Lemma insert_fresh_slot (hs : list Slot) (s s' : Slot) :
  <[length hs := s']> (hs ++ [s]) = hs ++ [s'].
Proof.
  replace (length hs) with (length hs + 0) by lia.
  by rewrite insert_app_r.
Qed.

Lemma run_main_no_module (p : Proc) :
  (forall f, fs (loader p) !! lib_path = Some f -> loadable f = false) ->
  run main p
  = {| outcome := Crashed;
       events := [EvDlopen lib_path RTLD_NOW; EvDlsym NULL "run_haxe";
                  EvCall NULL];
       final := {| loader := loader p; world := world p |} |}.
Proof.
  intros Hf. destruct p as [l w]. cbn [loader world] in *.
  unfold run, main, mbind, M_bind, c_dlopen, c_dlsym, c_call.
  cbn [loader world]. rewrite (dlopen_fail _ _ _ Hf). reflexivity.
Qed.

Lemma run_main_no_init (p : Proc) (f : File) :
  fs (loader p) !! lib_path = Some f -> loadable f = true ->
  f_exports f !! "run_haxe" = None ->
  let n := length (handles (loader p)) in
  run main p
  = {| outcome := Crashed;
       events := [EvDlopen lib_path RTLD_NOW; EvDlsym (Handle n) "run_haxe";
                  EvCall NULL];
       final := {| loader := set_handles (loader p)
                               (handles (loader p)
                                  ++ [new_slot lib_path RTLD_NOW f]);
                   world := world p |} |}.
Proof.
  intros Hf Hl Hi n. destruct p as [l w]. cbn [loader world] in *.
  unfold run, main, mbind, M_bind, c_dlopen, c_dlsym, c_call.
  cbn [loader world]. rewrite (dlopen_ok _ _ _ _ Hf Hl).
  cbn [loader world].
  rewrite (dlsym_missing _ _ _ (new_slot lib_path RTLD_NOW f));
    [reflexivity|apply lookup_fresh_slot|exact Hi].
Qed.

Lemma set_handles_twice (l : Loader) (a b : list Slot) :
  set_handles (set_handles l a) b = set_handles l b.
Proof. reflexivity. Qed.

Lemma run_main_no_test (p : Proc) (f : File) (init : Entry) :
  fs (loader p) !! lib_path = Some f -> loadable f = true ->
  f_exports f !! "run_haxe" = Some init ->
  f_exports f !! "empty_test" = None ->
  let n := length (handles (loader p)) in
  run main p
  = {| outcome := Crashed;
       events := [EvDlopen lib_path RTLD_NOW; EvDlsym (Handle n) "run_haxe";
                  EvCall (Fn n "run_haxe"); EvDlsym (Handle n) "empty_test";
                  EvCall NULL];
       final := {| loader := set_handles (loader p)
                               (handles (loader p)
                                  ++ [bind_symbol "run_haxe"
                                        (new_slot lib_path RTLD_NOW f)]);
                   world := (init (world p)).2 |} |}.
Proof.
  intros Hf Hl Hi Ht n. destruct p as [l w]. cbn [loader world] in *.
  unfold run, main, mbind, M_bind, c_dlopen, c_dlsym, c_call.
  cbn [loader world]. rewrite (dlopen_ok _ _ _ _ Hf Hl).
  cbn [loader world].
  rewrite (dlsym_found _ _ _ (new_slot lib_path RTLD_NOW f) init);
    [|apply lookup_fresh_slot|reflexivity|exact Hi].
  cbn [handles set_handles loader world].
  rewrite set_handles_twice, insert_fresh_slot.
  rewrite (call_found _ _ _ _ (bind_symbol "run_haxe"
                                 (new_slot lib_path RTLD_NOW f)) init);
    [|apply lookup_fresh_slot|reflexivity|exact Hi].
  destruct (init w) as [r w1]. cbn [loader world snd].
  rewrite (dlsym_missing _ _ _ (bind_symbol "run_haxe"
                                  (new_slot lib_path RTLD_NOW f)));
    [reflexivity|apply lookup_fresh_slot|exact Ht].
Qed.

Lemma run_main_ok (p : Proc) (f : File) (init test : Entry) :
  fs (loader p) !! lib_path = Some f -> loadable f = true ->
  f_exports f !! "run_haxe" = Some init ->
  f_exports f !! "empty_test" = Some test ->
  let n := length (handles (loader p)) in
  run main p
  = {| outcome := Exited 0;
       events := script (Handle n) (Fn n "run_haxe") (Fn n "empty_test");
       final := {| loader := set_handles (loader p)
                               (handles (loader p)
                                  ++ [release
                                        (bind_symbol "empty_test"
                                           (bind_symbol "run_haxe"
                                              (new_slot lib_path RTLD_NOW f)))]);
                   world := (test (init (world p)).2).2 |} |}.
Proof.
  intros Hf Hl Hi Ht n. destruct p as [l w]. cbn [loader world] in *.
  unfold run, main, mbind, M_bind, mret, M_ret,
    c_dlopen, c_dlsym, c_call, c_dlclose.
  cbn [loader world]. rewrite (dlopen_ok _ _ _ _ Hf Hl).
  cbn [loader world].
  rewrite (dlsym_found _ _ _ (new_slot lib_path RTLD_NOW f) init);
    [|apply lookup_fresh_slot|reflexivity|exact Hi].
  cbn [handles set_handles loader world].
  rewrite set_handles_twice, insert_fresh_slot.
  rewrite (call_found _ _ _ _ (bind_symbol "run_haxe"
                                 (new_slot lib_path RTLD_NOW f)) init);
    [|apply lookup_fresh_slot|reflexivity|exact Hi].
  destruct (init w) as [r w1]. cbn [loader world snd].
  rewrite (dlsym_found _ _ _ (bind_symbol "run_haxe"
                                (new_slot lib_path RTLD_NOW f)) test);
    [|apply lookup_fresh_slot|reflexivity|exact Ht].
  cbn [handles set_handles loader world].
  rewrite set_handles_twice, insert_fresh_slot.
  rewrite (call_found _ _ _ _
             (bind_symbol "empty_test"
                (bind_symbol "run_haxe" (new_slot lib_path RTLD_NOW f)))
             test);
    [|apply lookup_fresh_slot|reflexivity|exact Ht].
  destruct (test w1) as [r' w2]. cbn [loader world snd].
  rewrite (dlclose_open _ _
             (bind_symbol "empty_test"
                (bind_symbol "run_haxe" (new_slot lib_path RTLD_NOW f))));
    [|apply lookup_fresh_slot|reflexivity].
  cbn [handles set_handles loader world].
  rewrite set_handles_twice, insert_fresh_slot. reflexivity.
Qed.

End ClientFacts.

(** ** The loader's contract *)

Section LoaderClaims.
Import Shared Dl Client.

Lemma dlopen_not_module (path : string) (mode : Mode) (l : Loader) :
  is_module l path = false -> dlopen path mode l = (NULL, l).
Proof.
  unfold is_module. intros H. apply dlopen_fail. intros f Hf.
  by rewrite Hf in H.
Qed.

(** C6. For every loader state and every path that does not name an
    existing, valid module with its dependencies met, [open] returns
    [LoadError], in either mode; it gives out no handle and leaves the
    loader as it was. *)
Theorem C6_open_missing_is_LoadError (l : Loader) (path : string)
  (mode : Mode) :
  is_module l path = false ->
  open path mode l = (inr LoadError, l)
  /\ (forall h, lifecycle (open path mode l).2 h = lifecycle l h).
Proof.
  intros H. unfold open. rewrite (dlopen_not_module _ _ _ H). done.
Qed.

(** C6 on a machine without the library, at the path the client opens. *)
Lemma C6_open_on_bare_machine :
  is_module (loader bare_proc) lib_path = false
  /\ open lib_path RTLD_NOW (loader bare_proc)
     = (inr LoadError, loader bare_proc).
Proof.
  split; [reflexivity|].
  apply (C6_open_missing_is_LoadError (loader bare_proc) lib_path RTLD_NOW).
  reflexivity.
Defined.

(** C5. For every loader state, every open handle and every name that is
    not in the export table of the handle's module, [resolve] returns
    [SymbolNotFoundError] and leaves the loader as it was; and a
    reference with that name cannot be invoked. *)
Theorem C5_resolve_missing_is_SymbolNotFound (l : Loader)
  (h : LibraryHandle) (s : Slot) (name : string) :
  handles l !! h = Some s -> h_open s = true ->
  h_exports s !! name = None ->
  resolve h name l = (inr SymbolNotFoundError, l)
  /\ (forall w, invoke {| ref_handle := h; ref_name := name |} l w = None).
Proof.
  intros Hs Ho Hn. split.
  - unfold resolve. by rewrite (dlsym_missing _ _ _ _ Hs Hn).
  - intros w. unfold invoke. cbn [ref_handle ref_name]. unfold call.
    by rewrite Hs, Ho, Hn.
Qed.

(** C5 on the guide's library, opened: it exports no [run_test]. *)
Lemma C5_resolve_run_test :
  resolve 0 "run_test" (guide_opened guide_runtime RTLD_NOW)
  = (inr SymbolNotFoundError, guide_opened guide_runtime RTLD_NOW)
  /\ (forall w, invoke {| ref_handle := 0; ref_name := "run_test" |}
                  (guide_opened guide_runtime RTLD_NOW) w = None).
Proof.
  apply (C5_resolve_missing_is_SymbolNotFound
           (guide_opened guide_runtime RTLD_NOW) 0
           (new_slot lib_path RTLD_NOW (libEmpty_file guide_runtime))
           "run_test"); reflexivity.
Defined.

Lemma bind_symbol_twice (name : string) (s : Slot) :
  bind_symbol name (bind_symbol name s) = bind_symbol name s.
Proof.
  unfold bind_symbol. cbn. f_equal.
  by rewrite (assoc_L (∪)), (idemp_L (∪)).
Qed.

(** What a successful [resolve] tells about the loader. *)
Lemma resolve_inl (l l1 : Loader) (h : LibraryHandle) (name : string)
  (r : SymbolReference) :
  resolve h name l = (inl r, l1) ->
  exists s body,
    handles l !! h = Some s /\ h_open s = true
    /\ h_exports s !! name = Some body
    /\ r = {| ref_handle := h; ref_name := name |}
    /\ l1 = set_handles l (<[h := bind_symbol name s]> (handles l)).
Proof.
  unfold resolve, dlsym.
  destruct (handles l !! h) as [s|] eqn:Hs; [|intros H; discriminate H].
  destruct (h_open s) eqn:Ho; [|intros H; discriminate H].
  destruct (h_exports s !! name) as [body|] eqn:Hb;
    [|intros H; discriminate H].
  intros H. injection H as <- <-. by exists s, body.
Qed.

(** C7. For every loader state, every open handle and every exported
    name: [resolve] gives a reference, resolving the same name again on
    that handle gives the same reference and changes nothing more, and
    the two references invoked on the same world give the same result and
    the same effect, that of the exported entry point run on that world. *)
Theorem C7_resolve_idempotent (l : Loader) (h : LibraryHandle) (s : Slot)
  (name : string) (body : Entry) :
  handles l !! h = Some s -> h_open s = true ->
  h_exports s !! name = Some body ->
  exists r1 l1 r2 l2,
    resolve h name l = (inl r1, l1)
    /\ resolve h name l1 = (inl r2, l2)
    /\ r2 = r1 /\ l2 = l1
    /\ (forall w, invoke r1 l1 w = Some (body w)
                  /\ invoke r2 l2 w = Some (body w)
                  /\ invoke r1 l2 w = invoke r2 l2 w).
Proof.
  intros Hs Ho Hb.
  assert (Hs1 : handles (set_handles l (<[h := bind_symbol name s]> (handles l))) !! h
                = Some (bind_symbol name s)).
  { cbn [handles set_handles]. apply list_lookup_insert_eq.
    by eapply lookup_lt_Some. }
  exists {| ref_handle := h; ref_name := name |},
    (set_handles l (<[h := bind_symbol name s]> (handles l))),
    {| ref_handle := h; ref_name := name |},
    (set_handles l (<[h := bind_symbol name s]> (handles l))).
  split; [|split; [|split; [done|split; [done|]]]].
  - unfold resolve. by rewrite (dlsym_found _ _ _ s body Hs Ho Hb).
  - unfold resolve.
    rewrite (dlsym_found _ _ _ (bind_symbol name s) body Hs1 Ho Hb).
    cbn [handles set_handles]. rewrite set_handles_twice.
    by rewrite list_insert_insert_eq, bind_symbol_twice.
  - intros w. unfold invoke. cbn [ref_handle ref_name].
    by rewrite (call_found _ _ _ _ (bind_symbol name s) body Hs1 Ho Hb).
Qed.

(** C7 on the guide's library, loaded lazily: [empty_test] resolved
    twice. *)
Lemma C7_resolve_empty_test_twice :
  exists r1 l1 r2 l2,
    resolve 0 "empty_test" (guide_opened guide_runtime RTLD_LAZY) = (inl r1, l1)
    /\ resolve 0 "empty_test" l1 = (inl r2, l2)
    /\ r2 = r1 /\ l2 = l1
    /\ (forall w, invoke r1 l1 w = Some (RVoid, empty_test guide_runtime w)
                  /\ invoke r2 l2 w = Some (RVoid, empty_test guide_runtime w)
                  /\ invoke r1 l2 w = invoke r2 l2 w).
Proof.
  apply (C7_resolve_idempotent
           (guide_opened guide_runtime RTLD_LAZY) 0
           (new_slot lib_path RTLD_LAZY (libEmpty_file guide_runtime))
           "empty_test" (fun w => (RVoid, empty_test guide_runtime w)));
    reflexivity.
Defined.

End LoaderClaims.

(** ** The client's runs *)

Section ClientClaims.
Import Shared Dl Client.

Lemma lifecycle_grow (l : Loader) (s : Slot) (h : nat) :
  rank (lifecycle l h)
  <= rank (lifecycle (set_handles l (handles l ++ [s])) h).
Proof.
  unfold lifecycle. cbn [handles set_handles].
  destruct (handles l !! h) as [s0|] eqn:Hs.
  - by rewrite (lookup_app_l_Some _ _ _ _ Hs).
  - cbn. lia.
Qed.

Lemma lifecycle_grow_other (l : Loader) (s : Slot) (h : nat) :
  h <> length (handles l) ->
  lifecycle (set_handles l (handles l ++ [s])) h = lifecycle l h.
Proof.
  intros Hne. unfold lifecycle. cbn [handles set_handles].
  destruct (decide (h < length (handles l))) as [Hlt|Hge].
  - by rewrite lookup_app_l.
  - rewrite !lookup_ge_None_2; [done|lia|].
    rewrite length_app. cbn. lia.
Qed.

Lemma lifecycle_fresh (l : Loader) :
  lifecycle l (length (handles l)) = Unopened.
Proof. unfold lifecycle. by rewrite lookup_ge_None_2. Qed.

(** Every run of the client is one of four: no module at the path, no
    bootstrap symbol, no test symbol, or the full sequence. *)
Lemma run_main_cases (p : Proc) :
  let n := length (handles (loader p)) in
  (run main p
   = {| outcome := Crashed;
        events := [EvDlopen lib_path RTLD_NOW; EvDlsym NULL "run_haxe";
                   EvCall NULL];
        final := {| loader := loader p; world := world p |} |})
  \/ (exists s,
       run main p
       = {| outcome := Crashed;
            events := [EvDlopen lib_path RTLD_NOW;
                       EvDlsym (Handle n) "run_haxe"; EvCall NULL];
            final := {| loader := set_handles (loader p)
                                    (handles (loader p) ++ [s]);
                        world := world p |} |})
  \/ (exists s w,
       run main p
       = {| outcome := Crashed;
            events := [EvDlopen lib_path RTLD_NOW;
                       EvDlsym (Handle n) "run_haxe";
                       EvCall (Fn n "run_haxe");
                       EvDlsym (Handle n) "empty_test"; EvCall NULL];
            final := {| loader := set_handles (loader p)
                                    (handles (loader p) ++ [s]);
                        world := w |} |})
  \/ (exists s w,
       h_open s = false
       /\ run main p
          = {| outcome := Exited 0;
               events := script (Handle n) (Fn n "run_haxe")
                           (Fn n "empty_test");
               final := {| loader := set_handles (loader p)
                                       (handles (loader p) ++ [s]);
                           world := w |} |}).
Proof.
  intros n.
  destruct (fs (loader p) !! lib_path) as [f|] eqn:Hf.
  2:{ left. apply run_main_no_module. intros f Hf'. congruence. }
  destruct (loadable f) eqn:Hl.
  2:{ left. apply run_main_no_module. intros f' Hf'. congruence. }
  destruct (f_exports f !! "run_haxe") as [init|] eqn:Hi.
  2:{ right; left. eexists. by apply (run_main_no_init p f). }
  destruct (f_exports f !! "empty_test") as [test|] eqn:Ht.
  2:{ right; right; left. do 2 eexists.
      by apply (run_main_no_test p f init). }
  right; right; right. do 2 eexists. split; [|by apply (run_main_ok p f init test)].
  reflexivity.
Qed.


(** C2. Every run of the client is a prefix of the guide's sequence
    (open, resolve the bootstrap, call it, resolve the test, call it,
    close) and obeys the order open, then resolves and calls, then close;
    it exits (with status 0) exactly when it performed the whole
    sequence. When the module at the path is loadable and exports both
    entry points, the run is the whole sequence on the fresh handle, the
    bootstrap is resolved and called first on the world as it was, the
    test on the world the bootstrap left, and the client exits with 0. *)
Theorem C2_client_sequence (p : Proc) :
  let n := length (handles (loader p)) in
  let r := run main p in
  (exists handle init test, events r `prefix_of` script handle init test)
  /\ monitor Unopened (events r) = true
  /\ (outcome r = Crashed \/ outcome r = Exited 0)
  /\ (outcome r = Exited 0 <->
      events r = script (Handle n) (Fn n "run_haxe") (Fn n "empty_test"))
  /\ (forall (f : File) (init test : Entry),
        fs (loader p) !! lib_path = Some f -> loadable f = true ->
        f_exports f !! "run_haxe" = Some init ->
        f_exports f !! "empty_test" = Some test ->
        outcome r = Exited 0
        /\ events r = script (Handle n) (Fn n "run_haxe") (Fn n "empty_test")
        /\ world (final r) = (test (init (world p)).2).2).
Proof.
  intros n r. subst r. split; [|split; [|split; [|split]]].
  - destruct (run_main_cases p)
      as [H|[(s & H)|[(s & w & H)|(s & w & _ & H)]]]; rewrite H; cbn [events].
    + exists NULL, NULL, NULL. by eexists [_; _; _].
    + exists (Handle n), NULL, NULL. by eexists [_; _; _].
    + exists (Handle n), (Fn n "run_haxe"), NULL. by eexists [_].
    + exists (Handle n), (Fn n "run_haxe"), (Fn n "empty_test"). by exists [].
  - destruct (run_main_cases p)
      as [H|[(s & H)|[(s & w & H)|(s & w & _ & H)]]]; by rewrite H.
  - destruct (run_main_cases p)
      as [H|[(s & H)|[(s & w & H)|(s & w & _ & H)]]]; rewrite H; cbn; auto.
  - destruct (run_main_cases p)
      as [H|[(s & H)|[(s & w & H)|(s & w & _ & H)]]]; rewrite H;
      cbn [outcome events]; split; intros E; try discriminate E; done.
  - intros f init test Hf Hl Hi Ht.
    by rewrite (run_main_ok p f init test Hf Hl Hi Ht).
Qed.

(** C2 on the guide's set-up: the whole sequence on handle 0, and the two
    lines the guide shows as the client's output. *)
Lemma C2_guide_run :
  outcome (run main (guide_proc guide_runtime)) = Exited 0
  /\ events (run main (guide_proc guide_runtime))
     = script (Handle 0) (Fn 0 "run_haxe") (Fn 0 "empty_test")
  /\ world (final (run main (guide_proc guide_runtime)))
     = {| top_of_stack := true; initialized := true;
          stdout := [Stdio.Traced "hello empty library";
                     Stdio.Traced "hello test function"] |}.
Proof.
  apply (proj2 (proj2 (proj2 (proj2
           (C2_client_sequence (guide_proc guide_runtime)))))
           (libEmpty_file guide_runtime)
           (fun w => let '(r, w') := run_haxe guide_runtime w in (RInt r, w'))
           (fun w => (RVoid, empty_test guide_runtime w)));
    reflexivity.
Defined.

(** C4. In every run of the client there is at most one close, and
    resolves and calls happen only between the open and the close (so no
    call follows the close); no handle ever moves backwards on
    [Unopened -> Open -> Closed], in the client's run and under any
    sequence of loader operations; when the client exits, the handle it
    was given went from [Unopened] to [Closed]; and on a closed handle a
    second close fails and changes nothing, no symbol resolves, and no
    reference obtained from it can be invoked. *)
Theorem C4_handle_lifecycle (p : Proc) :
  let n := length (handles (loader p)) in
  let r := run main p in
  closes (events r) <= 1
  /\ monitor Unopened (events r) = true
  /\ (forall h, rank (lifecycle (loader p) h)
                <= rank (lifecycle (loader (final r)) h))
  /\ (outcome r = Exited 0 ->
      lifecycle (loader p) n = Unopened
      /\ lifecycle (loader (final r)) n = Closed)
  /\ (forall (ops : list Op) (lw : Loader * World) (h : nat),
        rank (lifecycle lw.1 h) <= rank (lifecycle (exec ops lw).1 h))
  /\ (forall (l : Loader) (h : nat) (name : string) (w : World),
        lifecycle l h = Closed ->
        dlclose (Handle h) l = ((-1)%Z, l)
        /\ (close h l).1 <> inl tt /\ (close h l).2 = l
        /\ dlsym (Handle h) name l = (NULL, l)
        /\ call (Fn h name) l w = None
        /\ invoke {| ref_handle := h; ref_name := name |} l w = None).
Proof.
  intros n r. subst n r. split; [|split; [|split; [|split; [|split]]]].
  - destruct (run_main_cases p)
      as [H|[(s & H)|[(s & w & H)|(s & w & _ & H)]]]; rewrite H; cbn; lia.
  - destruct (run_main_cases p)
      as [H|[(s & H)|[(s & w & H)|(s & w & _ & H)]]]; by rewrite H.
  - intros h. destruct (run_main_cases p)
      as [H|[(s & H)|[(s & w & H)|(s & w & _ & H)]]]; rewrite H;
      cbn [final loader]; [done|apply lifecycle_grow..].
  - destruct (run_main_cases p)
      as [H|[(s & H)|[(s & w & H)|(s & w & Hc & H)]]]; rewrite H;
      cbn [outcome final loader]; intros E; try discriminate E.
    split; [apply lifecycle_fresh|].
    unfold lifecycle. cbn [handles set_handles].
    by rewrite lookup_fresh_slot, Hc.
  - intros ops lw h. apply exec_forward.
  - intros l h name w Hc.
    assert (Hno : lifecycle l h <> Open) by (rewrite Hc; discriminate).
    unfold close, invoke. cbn [ref_handle ref_name].
    rewrite (dlclose_not_open h l Hno), (dlsym_not_open h name l Hno),
      (call_not_open h name l w Hno). cbn. done.
Qed.

(** C4 on the guide's set-up: the client exits, and handle 0 has gone
    from [Unopened] to [Closed]. *)
Lemma C4_guide_run :
  outcome (run main (guide_proc guide_runtime)) = Exited 0
  /\ lifecycle (loader (guide_proc guide_runtime)) 0 = Unopened
  /\ lifecycle (loader (final (run main (guide_proc guide_runtime)))) 0
     = Closed.
Proof.
  split; [reflexivity|].
  apply (proj1 (proj2 (proj2 (proj2
           (C4_handle_lifecycle (guide_proc guide_runtime)))))).
  reflexivity.
Defined.

(** C8, as amended. No [initialized] flag is consulted: [empty_test] is
    the call of [Empty_obj::test()] on any world, and the call through
    the function pointer runs the entry point as it is. That the
    bootstrap ran first is a matter of the order of calls in the client:
    in every run, a call of [empty_test] comes after a call of [run_haxe]
    on the same handle, and with the library of empty.cpp at the path the
    test runs on the world [run_haxe] left. *)
Theorem C8_bootstrap_by_call_order (rt : Hxcpp) (p : Proc) :
  (forall w, empty_test rt w = Empty_obj_test rt w)
  /\ (forall (l : Loader) (h : nat) (s : Slot) (w : World),
        handles l !! h = Some s -> h_open s = true ->
        h_exports s = libEmpty rt ->
        call (Fn h "empty_test") l w = Some (RVoid, Empty_obj_test rt w))
  /\ (forall k h,
        events (run main p) !! k = Some (EvCall (Fn h "empty_test")) ->
        exists j, j < k
          /\ events (run main p) !! j = Some (EvCall (Fn h "run_haxe")))
  /\ (fs (loader p) !! lib_path = Some (libEmpty_file rt) ->
      outcome (run main p) = Exited 0
      /\ world (final (run main p))
         = empty_test rt (run_haxe rt (world p)).2).
Proof.
  split; [done|]. split; [|split].
  - intros l h s w Hs Ho He.
    by rewrite (call_found h "empty_test" l w s
                  (fun w => (RVoid, empty_test rt w)) Hs Ho);
      [|rewrite He].
  - intros k h.
    destruct (run_main_cases p)
      as [H|[(s & H)|[(s & w & H)|(s & w & _ & H)]]]; rewrite H;
      cbn [events script]; intros E;
      destruct k as [|[|[|[|[|[|k]]]]]]; cbn in E; try discriminate E.
    injection E as <-. exists 2. split; [lia|done].
  - intros Hf.
    rewrite (run_main_ok p (libEmpty_file rt)
               (fun w => let '(r, w') := run_haxe rt w in (RInt r, w'))
               (fun w => (RVoid, empty_test rt w)) Hf);
      [|reflexivity..].
    cbn [outcome final world]. split; [done|].
    by destruct (run_haxe rt (world p)).
Qed.

(** C8 on the guide's set-up: the client exits, and the test ran on the
    world the bootstrap left. *)
Lemma C8_guide_run :
  outcome (run main (guide_proc guide_runtime)) = Exited 0
  /\ world (final (run main (guide_proc guide_runtime)))
     = empty_test guide_runtime (run_haxe guide_runtime fresh).2.
Proof.
  apply (proj2 (proj2 (proj2
           (C8_bootstrap_by_call_order guide_runtime
              (guide_proc guide_runtime))))).
  reflexivity.
Defined.

(** C8 as stated fails: on the guide's library, opened but with the
    runtime never initialized, [empty_test] resolves, the call goes
    through, and the body of [Empty_obj::test()] has run. *)
Lemma C8_test_runs_uninitialized :
  initialized fresh = false
  /\ (resolve 0 "empty_test" (guide_opened guide_runtime RTLD_NOW)).1
     = inl {| ref_handle := 0; ref_name := "empty_test" |}
  /\ invoke {| ref_handle := 0; ref_name := "empty_test" |}
       (resolve 0 "empty_test" (guide_opened guide_runtime RTLD_NOW)).2
       fresh
     = Some (RVoid, empty_test guide_runtime fresh)
  /\ empty_test guide_runtime fresh
     = {| top_of_stack := false; initialized := false;
          stdout := [Stdio.Traced "hello test function"] |}.
Proof. repeat split; reflexivity. Qed.

End ClientClaims.

(** ** More on Foreign.cpp and its client *)

Section ForeignExtras.
Import Cint Stdio Foreign Haxe Usage.

Lemma wrap_range (z : Z) : in_range (wrap z).
Proof.
  unfold wrap, in_range, INT_MIN, INT_MAX.
  pose proof (Z.mod_pos_bound (z + 2 ^ 31) (2 ^ 32)) as Hb. lia.
Qed.

Lemma wrap_add_l (a b : Z) : wrap (wrap a + b) = wrap (a + b).
Proof.
  unfold wrap. f_equal.
  replace ((a + 2 ^ 31) mod 2 ^ 32 - 2 ^ 31 + b + 2 ^ 31)%Z
    with ((a + 2 ^ 31) mod 2 ^ 32 + b)%Z by lia.
  rewrite Zplus_mod_idemp_l. f_equal. lia.
Qed.

(** X1. Whatever [int] it is given, [CPP_ForeignFunction] returns an
    [int]; the result is [n + 1] exactly when [n] is not [INT_MAX], and
    [INT_MIN] when it is. *)
Theorem X1_result_is_an_int (n : Z) (out : list Output) :
  in_range n ->
  in_range (val_int (CPP_ForeignFunction (VInt n) out).1)
  /\ ((CPP_ForeignFunction (VInt n) out).1 = VInt (n + 1) <-> n <> INT_MAX)
  /\ (n = INT_MAX -> (CPP_ForeignFunction (VInt n) out).1 = VInt INT_MIN).
Proof.
  intros Hn. rewrite CPP_ForeignFunction_result. cbn [val_int alloc_int].
  split; [apply incr_in_range|]. split.
  - split.
    + intros H Hmax. subst n. discriminate H.
    + intros Hne. rewrite incr_below_INT_MAX; [done|].
      unfold in_range in Hn. lia.
  - intros ->. reflexivity.
Qed.

(** X1 at the smallest [int]. *)
Lemma X1_at_INT_MIN :
  in_range INT_MIN
  /\ in_range (val_int (CPP_ForeignFunction (VInt INT_MIN) []).1)
  /\ ((CPP_ForeignFunction (VInt INT_MIN) []).1 = VInt (INT_MIN + 1)
      <-> INT_MIN <> INT_MAX)
  /\ (INT_MIN = INT_MAX ->
      (CPP_ForeignFunction (VInt INT_MIN) []).1 = VInt INT_MIN).
Proof.
  split; [unfold in_range, INT_MIN, INT_MAX; lia|].
  apply (X1_result_is_an_int INT_MIN []).
  unfold in_range, INT_MIN, INT_MAX; lia.
Defined.

(** X2. On [int]s the function is one-to-one and onto: every [int] [r] is
    returned for exactly one [int] input, the one below it (and [INT_MAX]
    for [INT_MIN]). *)
Theorem X2_one_to_one_on_int (r : Z) (out : list Output) :
  in_range r ->
  in_range (wrap (r - 1))
  /\ (CPP_ForeignFunction (VInt (wrap (r - 1))) out).1 = VInt r
  /\ (forall n out',
        in_range n -> (CPP_ForeignFunction (VInt n) out').1 = VInt r ->
        n = wrap (r - 1)).
Proof.
  intros Hr. split; [apply wrap_range|]. split.
  - rewrite CPP_ForeignFunction_result. cbn [val_int alloc_int].
    unfold incr. rewrite wrap_add_l.
    replace (r - 1 + 1)%Z with r by lia. by rewrite wrap_in_range.
  - intros n out' Hn H. rewrite CPP_ForeignFunction_result in H.
    cbn [val_int alloc_int] in H. injection H as <-.
    unfold incr. rewrite <- (Z.add_opp_r (wrap (n + 1)) 1), wrap_add_l.
    replace (n + 1 + - (1))%Z with n by lia. by rewrite wrap_in_range.
Qed.

(** X2 at [INT_MIN]: it comes from [INT_MAX] and from no other [int]. *)
Lemma X2_preimage_of_INT_MIN :
  in_range INT_MIN
  /\ in_range (wrap (INT_MIN - 1))
  /\ (CPP_ForeignFunction (VInt (wrap (INT_MIN - 1))) []).1 = VInt INT_MIN
  /\ (forall n out',
        in_range n -> (CPP_ForeignFunction (VInt n) out').1 = VInt INT_MIN ->
        n = wrap (INT_MIN - 1)).
Proof.
  split; [unfold in_range, INT_MIN, INT_MAX; lia|].
  apply (X2_one_to_one_on_int INT_MIN []).
  unfold in_range, INT_MIN, INT_MAX; lia.
Defined.

Lemma call_times_wraps (k : nat) (n : Z) (out : list Output) :
  in_range n ->
  (call_times k (VInt n) out).1 = VInt (wrap (n + Z.of_nat k)).
Proof.
  revert n out. induction k as [|k IH]; intros n out Hn.
  - cbn [call_times fst]. rewrite Z.add_0_r. by rewrite wrap_in_range.
  - cbn [call_times].
    rewrite (surjective_pairing (CPP_ForeignFunction (VInt n) out)).
    rewrite CPP_ForeignFunction_result. cbn [val_int alloc_int].
    rewrite IH by apply incr_in_range.
    unfold incr. rewrite wrap_add_l. do 2 f_equal. lia.
Qed.

Lemma call_times_exact (k : nat) (n : Z) (out : list Output) :
  (INT_MIN <= n)%Z -> (n + Z.of_nat k <= INT_MAX)%Z ->
  call_times k (VInt n) out
  = (VInt (n + Z.of_nat k), out ++ printed_from n k).
Proof.
  revert n out. induction k as [|k IH]; intros n out Hlo Hhi.
  - cbn [call_times printed_from]. by rewrite Z.add_0_r, app_nil_r.
  - cbn [call_times printed_from].
    rewrite (surjective_pairing (CPP_ForeignFunction (VInt n) out)).
    rewrite CPP_ForeignFunction_result, CPP_ForeignFunction_output.
    cbn [val_int alloc_int]. rewrite incr_below_INT_MAX by lia.
    rewrite IH by lia. rewrite <- app_assoc. cbn [app]. do 2 f_equal. lia.
Qed.

(** X3. [k] calls in a row, each fed the result of the one before, add
    [k] modulo [2^32]; as long as [n + k] does not pass [INT_MAX] the
    result is [n + k], and the calls print the values [n], [n + 1], ...,
    [n + k - 1], in that order, after what was printed before. *)
Theorem X3_calls_in_a_row (k : nat) (n : Z) (out : list Output) :
  in_range n ->
  (call_times k (VInt n) out).1 = VInt (wrap (n + Z.of_nat k))
  /\ ((n + Z.of_nat k <= INT_MAX)%Z ->
      call_times k (VInt n) out
      = (VInt (n + Z.of_nat k), out ++ printed_from n k)).
Proof.
  intros Hn. split; [by apply call_times_wraps|].
  intros Hk. apply call_times_exact; [apply Hn|exact Hk].
Qed.

(** X3 for three calls from 2. *)
Lemma X3_three_calls_from_two :
  in_range 2
  /\ call_times 3 (VInt 2) []
     = (VInt 5, [Printed ("CPP: intVal = 2" +:+ nl);
                 Printed ("CPP: intVal = 3" +:+ nl);
                 Printed ("CPP: intVal = 4" +:+ nl)]).
Proof.
  split; [unfold in_range, INT_MIN, INT_MAX; lia|].
  apply (proj2 (X3_calls_in_a_row 3 2 []
                  ltac:(unfold in_range, INT_MIN, INT_MAX; lia))).
  unfold INT_MAX. cbn. lia.
Defined.

(** X4. The [try] of [Main.new] covers the load only. When the load
    returns a [Dynamic] whose call with one argument throws (null, or a
    primitive of another arity), the exception leaves the constructor:
    the invocation was attempted, nothing but the greeting was written,
    neither the failure message nor the result line. *)
Theorem X4_call_failure_is_not_caught (load : LibLoad) (out0 : list Output)
  (f : Dynamic) :
  load "libforeign" "CPP_ForeignFunction" 1 = Loaded f ->
  call_dynamic f [VInt 2]
    (out0 ++ [Traced "Hello from Main, about to load libforeign library"])
  = None ->
  let r := Main_new load out0 in
  completion r = Uncaught
  /\ ffi r = [EvLoad "libforeign" "CPP_ForeignFunction" 1; EvInvoke [VInt 2]]
  /\ Haxe.out r
     = out0 ++ [Traced "Hello from Main, about to load libforeign library"]
  /\ ForeignFunction (this r) = f.
Proof.
  intros Hl Hc. cbv zeta. unfold Main_new. rewrite Hl.
  cbn [ForeignFunction]. unfold trace. rewrite Hc. done.
Qed.

(** X4 when the load returns null, and when the library registered the
    function with two arguments. *)
Lemma X4_null_function :
  completion (Main_new (fun _ _ _ => Loaded DNull) []) = Uncaught
  /\ ffi (Main_new (fun _ _ _ => Loaded DNull) [])
     = [EvLoad "libforeign" "CPP_ForeignFunction" 1; EvInvoke [VInt 2]]
  /\ Haxe.out (Main_new (fun _ _ _ => Loaded DNull) [])
     = [Traced "Hello from Main, about to load libforeign library"]
  /\ ForeignFunction (this (Main_new (fun _ _ _ => Loaded DNull) [])) = DNull.
Proof.
  apply (X4_call_failure_is_not_caught (fun _ _ _ => Loaded DNull) [] DNull);
    reflexivity.
Defined.

(** X5. When the load returns a primitive of one argument, [Main.new]
    calls it once, with the boxed 2, on the output as the greeting left
    it, and then traces the [int] in the value that came back; it returns
    normally and keeps the primitive in its field. *)
Theorem X5_call_and_trace (load : LibLoad) (out0 : list Output)
  (f : value -> list Output -> value * list Output) :
  load "libforeign" "CPP_ForeignFunction" 1 = Loaded (DFunction (Fn1 f)) ->
  let called :=
    f (VInt 2)
      (out0 ++ [Traced "Hello from Main, about to load libforeign library"]) in
  let r := Main_new load out0 in
  completion r = Returned
  /\ ffi r = [EvLoad "libforeign" "CPP_ForeignFunction" 1; EvInvoke [VInt 2]]
  /\ Haxe.out r
     = called.2
       ++ [Traced ("Main called ForeignFunction(2), returned "
                   +:+ fmt_d (val_int called.1))]
  /\ ForeignFunction (this r) = DFunction (Fn1 f).
Proof.
  intros Hl. cbv zeta. unfold Main_new. rewrite Hl.
  cbn [ForeignFunction call_dynamic apply_native]. unfold trace.
  destruct (f (VInt 2) _) as [v o]. done.
Qed.

(** X5 with the primitive of Foreign.cpp, after some earlier output. *)
Lemma X5_with_CPP_ForeignFunction :
  Haxe.out (Main_new (Lib_load installed) [Printed "started"])
  = [Printed "started";
     Traced "Hello from Main, about to load libforeign library";
     Printed ("CPP: intVal = 2" +:+ nl);
     Traced "Main called ForeignFunction(2), returned 3"].
Proof.
  apply (proj1 (proj2 (proj2
           (X5_call_and_trace (Lib_load installed) [Printed "started"]
              CPP_ForeignFunction eq_refl)))).
Defined.

End ForeignExtras.

(** ** More on the client's runs *)

Section ClientExtras.
Import Stdio Shared Dl Client Usage.

(** X6. The client drops the status of the bootstrap: with the library of
    empty.cpp at the path, when [hxRunLibrary] returns an error string
    [e] (so that [run_haxe] returns -1), the client still goes through
    the whole sequence, calls [empty_test] on the world in which the line
    [Error e] was printed, closes, and exits with 0. *)
Theorem X6_bootstrap_status_dropped (rt : Hxcpp) (p : Proc) (e : string)
  (w' : World) :
  fs (loader p) !! lib_path = Some (libEmpty_file rt) ->
  hxRunLibrary rt (hxcpp_set_top_of_stack rt (world p)) = (Some e, w') ->
  let n := length (handles (loader p)) in
  (run_haxe rt (world p)).1 = (-1)%Z
  /\ outcome (run main p) = Exited 0
  /\ events (run main p)
     = script (Handle n) (Fn n "run_haxe") (Fn n "empty_test")
  /\ world (final (run main p))
     = Empty_obj_test rt
         {| top_of_stack := top_of_stack w'; initialized := initialized w';
            stdout := stdout w' ++ [Printed ("Error " +:+ e +:+ nl)] |}.
Proof.
  intros Hf He n. subst n.
  rewrite (run_main_ok p (libEmpty_file rt)
             (fun w => let '(r, w') := run_haxe rt w in (RInt r, w'))
             (fun w => (RVoid, empty_test rt w)) Hf);
    [|reflexivity..].
  cbn [outcome events final world].
  rewrite (run_haxe_err rt (world p) w' e He). done.
Qed.

(** X6 with a [static main] that throws: the error line, then the test's
    trace, and exit status 0. *)
Lemma X6_throwing_bootstrap :
  (run_haxe (throwing_runtime "boom") fresh).1 = (-1)%Z
  /\ outcome (run main (guide_proc (throwing_runtime "boom"))) = Exited 0
  /\ events (run main (guide_proc (throwing_runtime "boom")))
     = script (Handle 0) (Fn 0 "run_haxe") (Fn 0 "empty_test")
  /\ world (final (run main (guide_proc (throwing_runtime "boom"))))
     = {| top_of_stack := true; initialized := false;
          stdout := [Printed ("Error boom" +:+ nl);
                     Traced "hello test function"] |}.
Proof.
  apply (X6_bootstrap_status_dropped (throwing_runtime "boom")
           (guide_proc (throwing_runtime "boom")) "boom"
           {| top_of_stack := true; initialized := false; stdout := [] |});
    reflexivity.
Defined.

(** X7. When the path names no loadable module, the client does not
    notice: it resolves on the null handle, calls through the null
    pointer and ends there. No entry point has run, the loader and the
    world are as they were, and [dlclose] is never reached. *)
Theorem X7_missing_module (p : Proc) :
  is_module (loader p) lib_path = false ->
  outcome (run main p) = Crashed
  /\ events (run main p)
     = [EvDlopen lib_path RTLD_NOW; EvDlsym NULL "run_haxe"; EvCall NULL]
  /\ loader (final (run main p)) = loader p
  /\ world (final (run main p)) = world p
  /\ closes (events (run main p)) = 0.
Proof.
  intros H. rewrite run_main_no_module; [done|].
  unfold is_module in H. intros f Hf. by rewrite Hf in H.
Qed.

(** X7 on a machine without the library. *)
Lemma X7_on_bare_machine :
  is_module (loader bare_proc) lib_path = false
  /\ outcome (run main bare_proc) = Crashed
  /\ events (run main bare_proc)
     = [EvDlopen lib_path RTLD_NOW; EvDlsym NULL "run_haxe"; EvCall NULL]
  /\ loader (final (run main bare_proc)) = loader bare_proc
  /\ world (final (run main bare_proc)) = world bare_proc
  /\ closes (events (run main bare_proc)) = 0.
Proof.
  split; [reflexivity|]. apply (X7_missing_module bare_proc). reflexivity.
Defined.

(** X8. When the module loads but does not export [run_haxe], the client
    calls through the null pointer right after the failed resolve: no
    entry point runs (not [empty_test] either, exported or not), the
    world is as it was, and the handle stays open, since [dlclose] is
    never reached. *)
Theorem X8_missing_bootstrap_symbol (p : Proc) (f : File) :
  fs (loader p) !! lib_path = Some f -> loadable f = true ->
  f_exports f !! "run_haxe" = None ->
  let n := length (handles (loader p)) in
  outcome (run main p) = Crashed
  /\ events (run main p)
     = [EvDlopen lib_path RTLD_NOW; EvDlsym (Handle n) "run_haxe";
        EvCall NULL]
  /\ world (final (run main p)) = world p
  /\ lifecycle (loader (final (run main p))) n = Open
  /\ closes (events (run main p)) = 0.
Proof.
  intros Hf Hl Hi n. subst n. rewrite (run_main_no_init p f Hf Hl Hi).
  cbn [outcome events final world loader].
  split; [done|]. split; [done|]. split; [done|]. split; [|done].
  unfold lifecycle. cbn [handles set_handles].
  by rewrite lookup_fresh_slot.
Qed.

(** X8 with a build that exports [empty_test] only. *)
Lemma X8_build_without_run_haxe :
  outcome (run main (proc_with (only_empty_test guide_runtime) fresh))
  = Crashed
  /\ events (run main (proc_with (only_empty_test guide_runtime) fresh))
     = [EvDlopen lib_path RTLD_NOW; EvDlsym (Handle 0) "run_haxe";
        EvCall NULL]
  /\ world (final (run main (proc_with (only_empty_test guide_runtime) fresh)))
     = fresh
  /\ lifecycle
       (loader (final (run main (proc_with (only_empty_test guide_runtime)
                                   fresh)))) 0
     = Open
  /\ closes (events (run main (proc_with (only_empty_test guide_runtime)
                                 fresh)))
     = 0.
Proof.
  apply (X8_missing_bootstrap_symbol
           (proc_with (only_empty_test guide_runtime) fresh)
           (only_empty_test guide_runtime)); reflexivity.
Defined.

(** X9. When the module exports [run_haxe] but not [empty_test], the
    bootstrap has run by the time the client fails: the world is the one
    [run_haxe] left, the call through the null pointer ends the run, and
    the handle stays open. *)
Theorem X9_missing_test_symbol (p : Proc) (f : File) (init : Entry) :
  fs (loader p) !! lib_path = Some f -> loadable f = true ->
  f_exports f !! "run_haxe" = Some init ->
  f_exports f !! "empty_test" = None ->
  let n := length (handles (loader p)) in
  outcome (run main p) = Crashed
  /\ events (run main p)
     = [EvDlopen lib_path RTLD_NOW; EvDlsym (Handle n) "run_haxe";
        EvCall (Fn n "run_haxe"); EvDlsym (Handle n) "empty_test";
        EvCall NULL]
  /\ world (final (run main p)) = (init (world p)).2
  /\ lifecycle (loader (final (run main p))) n = Open
  /\ closes (events (run main p)) = 0.
Proof.
  intros Hf Hl Hi Ht n. subst n.
  rewrite (run_main_no_test p f init Hf Hl Hi Ht).
  cbn [outcome events final world loader].
  split; [done|]. split; [done|]. split; [done|]. split; [|done].
  unfold lifecycle. cbn [handles set_handles].
  by rewrite lookup_fresh_slot.
Qed.

(** X9 with a build that exports [run_haxe] only: the trace of
    [static main] is out, the test's is not. *)
Lemma X9_build_without_empty_test :
  outcome (run main (proc_with (only_run_haxe guide_runtime) fresh)) = Crashed
  /\ world (final (run main (proc_with (only_run_haxe guide_runtime) fresh)))
     = {| top_of_stack := true; initialized := true;
          stdout := [Traced "hello empty library"] |}
  /\ lifecycle
       (loader (final (run main (proc_with (only_run_haxe guide_runtime)
                                   fresh)))) 0
     = Open.
Proof.
  pose proof (X9_missing_test_symbol
                (proc_with (only_run_haxe guide_runtime) fresh)
                (only_run_haxe guide_runtime)
                (fun w => let '(r, w') := run_haxe guide_runtime w in
                          (RInt r, w'))
                eq_refl eq_refl eq_refl eq_refl) as (Ho & _ & Hw & Hl & _).
  split; [exact Ho|]. split; [exact Hw|exact Hl].
Defined.

(** X10. Whatever the run, the client leaves the rest of the loader
    alone: the files and the set of modules referenced elsewhere are as
    they were, the slots of the handles that existed are untouched (after
    them there is at most the one new handle), and no other handle changes
    its state. *)
Theorem X10_client_frame (p : Proc) :
  let n := length (handles (loader p)) in
  let l' := loader (final (run main p)) in
  fs l' = fs (loader p)
  /\ referenced l' = referenced (loader p)
  /\ handles (loader p) `prefix_of` handles l'
  /\ length (handles l') <= S n
  /\ (forall h, h <> n -> lifecycle l' h = lifecycle (loader p) h).
Proof.
  intros n l'. subst n l'.
  destruct (run_main_cases p)
    as [H|[(s & H)|[(s & w & H)|(s & w & _ & H)]]]; rewrite H;
    cbn [final loader set_handles fs referenced handles].
  1: { repeat split; [done|lia]. }
  all: repeat split;
    [by apply prefix_app_r
    |rewrite length_app; cbn; lia
    |intros h Hh; by apply lifecycle_grow_other].
Qed.

(** X11. With the library of the guide at the path, from any state of the
    loader and any earlier output, the client exits with 0 and what it
    adds to the output is the trace of [static main] followed by the trace
    of [test]; the stack has been registered and the runtime is
    initialized. *)
Theorem X11_guide_output (p : Proc) :
  fs (loader p) !! lib_path = Some (libEmpty_file guide_runtime) ->
  outcome (run main p) = Exited 0
  /\ stdout (world (final (run main p)))
     = stdout (world p)
       ++ [Traced "hello empty library"; Traced "hello test function"]
  /\ top_of_stack (world (final (run main p))) = true
  /\ initialized (world (final (run main p))) = true.
Proof.
  intros Hf.
  rewrite (run_main_ok p (libEmpty_file guide_runtime)
             (fun w => let '(r, w') := run_haxe guide_runtime w in (RInt r, w'))
             (fun w => (RVoid, empty_test guide_runtime w)) Hf);
    [|reflexivity..].
  cbn [outcome final world]. destruct (world p) as [t i o]. cbn.
  unfold trace. by rewrite <- app_assoc.
Qed.

(** X11 in a process that has written before. *)
Lemma X11_after_earlier_output :
  outcome (run main (proc_with (libEmpty_file guide_runtime)
                       {| top_of_stack := false; initialized := false;
                          stdout := [Printed "client started"] |}))
  = Exited 0
  /\ stdout (world (final (run main
                             (proc_with (libEmpty_file guide_runtime)
                                {| top_of_stack := false; initialized := false;
                                   stdout := [Printed "client started"] |}))))
     = [Printed "client started"; Traced "hello empty library";
        Traced "hello test function"].
Proof.
  pose proof (X11_guide_output
                (proc_with (libEmpty_file guide_runtime)
                   {| top_of_stack := false; initialized := false;
                      stdout := [Printed "client started"] |})
                eq_refl) as (Ho & Hs & _).
  split; [exact Ho|exact Hs].
Defined.

End ClientExtras.
